(** * Voice cog of Blabber (cogs/voice.py): connection and speech dispatch

    The three commands of the cog ([connect], [disconnect], [say]) and the
    helper [_connect] are coroutines that talk to collaborators: the
    permission checks of [blabber.checks], the [TTSAudio] source, the voice
    client of the chat backend and the invocation context.  They are
    embedded as programs over the calls they make ([Prog]); a handler gives
    each call its effect on the guild's session ([World]) and the list of
    calls issued ([Event]).  [run] executes one invocation to completion,
    [run_schedule] interleaves several invocations at their [await]s and
    [run_among] follows one invocation while others change the state during
    its suspensions. *)

From stdpp Require Import base option list strings gmap.

(** ** Data model *)

(** A voice channel; [==] on channels compares their ids. *)
Record VoiceChannel := { channel_id : nat; name : string }.

Definition channel_eqb (a b : VoiceChannel) : bool :=
  bool_decide (channel_id a = channel_id b).

(** Keyword arguments of a voice ([**voice]). *)
Definition VoiceParams := list (string * string).

(** [TTSRequest(message, **voice)]. *)
Record TTSRequest := { text : string; params : VoiceParams }.

(** [voice_client._player]: the playback handle, its [source] is a reference
    to a [TTSAudio] object, [playing] is what [is_playing()] reports. *)
Record AudioPlayer := { source : nat; playing : bool }.

(** [ctx.voice_client] when it is not [None]. *)
Record VoiceClient := { channel : VoiceChannel; _player : option AudioPlayer }.

(** The guild's session and the [TTSAudio] objects, by reference: the queue
    of pending requests of each, and the next reference to hand out. *)
Record World := {
  voice_client : option VoiceClient;
  sources : gmap nat (list TTSRequest);
  next_source : nat
}.

(** [ctx]: the invoker, the voice channel the invoker is in
    ([ctx.author.voice.channel], [None] when [ctx.author.voice] is [None]),
    the text channel of the invocation and the invoking message. *)
Record Context := {
  author : nat;
  author_voice : option VoiceChannel;
  invocation_channel : nat;
  message_id : nat
}.

(** Modelled from the spec: the registry behind [bot.voice_profiles]; its
    class is not part of cogs/voice.py.  The spec gives a mapping from
    (invoker, channel) to a profile name, with a default applied on a miss. *)
Record VoiceProfiles := {
  registered : gmap (nat * nat) string;
  default_alias : string
}.

Definition profile_of (reg : VoiceProfiles) (key : nat * nat) : string :=
  default (default_alias reg) (registered reg !! key).

(** [self]: the cog. *)
Record Voice := {
  pool : nat;
  voices : gmap string VoiceParams;
  voice_profiles : VoiceProfiles
}.

Inductive Exception :=
| PermissionError (missing : string)
| QueueFullError (detail : string)
| BackendError (detail : string)
| ClientException (detail : string)
| AttributeError (detail : string)
| KeyError (key : string).

Inductive Result (A : Type) :=
| Ok (a : A)
| Err (e : Exception).
Arguments Ok {A} a.
Arguments Err {A} e.

(** ** Calls to the collaborators *)

(** A call that was issued, in the order of issue. *)
Inductive Event :=
| EvCanDisconnect
| EvRequiredPermissions
| EvClear (src : nat)
| EvMoveTo (ch : VoiceChannel)
| EvConnect (ch : VoiceChannel)
| EvDisconnect
| EvSend (content : string)
| EvNewSource (pl src : nat)
| EvSubmit (src : nat) (req : TTSRequest)
| EvIsPlaying (answer : bool)
| EvPlay (src : nat)
| EvAddReaction (msg : nat) (emoji : string).

Inductive Op : Type -> Type :=
| GetVoiceClient : Op (option VoiceClient)
| CanDisconnect (ctx : Context) : Op unit
| RequiredPermissions (ctx : Context) : Op unit
| SourceClear (src : nat) : Op unit
| MoveTo (ch : VoiceChannel) : Op unit
| ChannelConnect (ch : VoiceChannel) : Op unit
| Disconnect : Op unit
| Send (content : string) : Op unit
| NewTTSAudio (pl : nat) : Op nat
| SubmitRequest (src : nat) (req : TTSRequest) : Op unit
| IsPlaying : Op bool
| Play (src : nat) : Op unit
| AddReaction (msg : nat) (emoji : string) : Op unit.

(** A coroutine: it returns, raises, suspends at an [await] on a
    collaborator, or calls a collaborator and goes on with the answer. *)
Inductive Prog (A : Type) : Type :=
| Ret (a : A)
| Raise (e : Exception)
| Await (k : Prog A)
| Vis {X : Type} (op : Op X) (k : X -> Prog A).
Arguments Ret {A} a.
Arguments Raise {A} e.
Arguments Await {A} k.
Arguments Vis {A X} op k.

Fixpoint bind {A B} (p : Prog A) (f : A -> Prog B) : Prog B :=
  match p with
  | Ret a => f a
  | Raise e => Raise e
  | Await k => Await (bind k f)
  | Vis op k => Vis op (fun x => bind (k x) f)
  end.

#[global] Instance prog_ret : MRet Prog := @Ret.
#[global] Instance prog_bind : MBind Prog := fun A B f p => bind p f.

Definition call {X} (op : Op X) : Prog X := Vis op Ret.

(** [await f(...)] on a collaborator: the coroutine may be suspended here
    and the event loop may resume other invocations; the call takes effect
    when this one is resumed.  Awaiting [self._connect(ctx)] runs the
    helper in place, its own [await]s are the suspension points. *)
Definition await {X} (op : Op X) : Prog X := Await (call op).

(** ** The collaborators *)

(** What cogs/voice.py does not decide: the verdict of the two permission
    checks ([None]: the check passes, [Some m]: it fails naming [m]), a
    transport failure of a backend call and a refusal of a submission
    (the queue is full). *)
Record Oracle := {
  disconnect_denied : Context -> World -> option string;
  permissions_missing : Context -> World -> option string;
  connect_failure : VoiceChannel -> World -> option string;
  move_failure : VoiceChannel -> World -> option string;
  disconnect_failure : World -> option string;
  submit_failure : nat -> TTSRequest -> World -> option string
}.

Definition queue_of (w : World) (src : nat) : list TTSRequest :=
  default [] (sources w !! src).

Definition set_voice_client (v : option VoiceClient) (w : World) : World :=
  {| voice_client := v; sources := sources w; next_source := next_source w |}.

Definition set_queue (src : nat) (q : list TTSRequest) (w : World) : World :=
  {| voice_client := voice_client w;
     sources := <[src := q]> (sources w);
     next_source := next_source w |}.

Definition alloc_source (w : World) : World :=
  {| voice_client := voice_client w;
     sources := <[next_source w := []]> (sources w);
     next_source := S (next_source w) |}.

(** [ctx.voice_client._player], [None] also when there is no session. *)
Definition current_player (w : World) : option AudioPlayer :=
  match voice_client w with
  | Some vc => _player vc
  | None => None
  end.

(** The sources created, the submissions made and the playbacks started in
    a list of calls. *)
Definition created (t : list Event) : list nat :=
  omap (fun e => match e with EvNewSource _ src => Some src | _ => None end) t.

Definition submitted (t : list Event) : list (nat * TTSRequest) :=
  omap (fun e => match e with EvSubmit src req => Some (src, req) | _ => None end) t.

Definition played (t : list Event) : list nat :=
  omap (fun e => match e with EvPlay src => Some src | _ => None end) t.

(** The messages sent, the reactions added and the sources cleared in a
    list of calls. *)
Definition sent (t : list Event) : list string :=
  omap (fun e => match e with EvSend content => Some content | _ => None end) t.

Definition reactions (t : list Event) : list (nat * string) :=
  omap (fun e => match e with EvAddReaction msg emoji => Some (msg, emoji) | _ => None end) t.

Definition cleared (t : list Event) : list nat :=
  omap (fun e => match e with EvClear src => Some src | _ => None end) t.

(** The calls of a connection step: the two checks, [clear], and the
    backend's [connect], [move_to] and [disconnect]. *)
Definition connection_calls (t : list Event) : list Event :=
  omap (fun e => match e with
                 | EvCanDisconnect | EvRequiredPermissions | EvClear _
                 | EvMoveTo _ | EvConnect _ | EvDisconnect => Some e
                 | _ => None
                 end) t.

(** [voice_client.is_playing()]: a player exists and is playing. *)
Definition is_playing (w : World) : bool :=
  match voice_client w with
  | Some vc => match _player vc with Some p => playing p | None => false end
  | None => false
  end.

Definition check (verdict : option string) : Result unit :=
  match verdict with
  | None => Ok tt
  | Some m => Err (PermissionError m)
  end.

(** A task of the event loop: a coroutine suspended at an [await], or done. *)
Inductive Task (A : Type) :=
| Suspended (p : Prog A)
| Finished (r : Result A).
Arguments Suspended {A} p.
Arguments Finished {A} r.

Section Handler.
Variable O : Oracle.

(** Modelled from the spec: the effect of each collaborator call, for the
    collaborators that are not part of cogs/voice.py.  Checks answer ok or
    fail with a [PermissionError]; [clear] drops the pending requests of a
    source and [submit_request] enqueues at the back or is refused;
    [connect] binds the session to the channel with no player, [move_to]
    changes its channel, [disconnect] removes the session, [play] installs
    a player on the source; a backend call that fails leaves the session
    as it was. *)
Definition handle {X} (op : Op X) (w : World) : Result X * World * list Event :=
  match op in Op X return Result X * World * list Event with
  | GetVoiceClient => (Ok (voice_client w), w, [])
  | CanDisconnect ctx => (check (disconnect_denied O ctx w), w, [EvCanDisconnect])
  | RequiredPermissions ctx =>
      (check (permissions_missing O ctx w), w, [EvRequiredPermissions])
  | SourceClear src => (Ok tt, set_queue src [] w, [EvClear src])
  | MoveTo ch =>
      match voice_client w with
      | None => (Err (ClientException "Not connected to voice."), w, [EvMoveTo ch])
      | Some vc =>
          match move_failure O ch w with
          | Some d => (Err (BackendError d), w, [EvMoveTo ch])
          | None =>
              (Ok tt,
               set_voice_client (Some {| channel := ch; _player := _player vc |}) w,
               [EvMoveTo ch])
          end
      end
  | ChannelConnect ch =>
      match voice_client w with
      | Some _ =>
          (Err (ClientException "Already connected to a voice channel."), w,
           [EvConnect ch])
      | None =>
          match connect_failure O ch w with
          | Some d => (Err (BackendError d), w, [EvConnect ch])
          | None =>
              (Ok tt,
               set_voice_client (Some {| channel := ch; _player := None |}) w,
               [EvConnect ch])
          end
      end
  | Disconnect =>
      match disconnect_failure O w with
      | Some d => (Err (BackendError d), w, [EvDisconnect])
      | None => (Ok tt, set_voice_client None w, [EvDisconnect])
      end
  | Send content => (Ok tt, w, [EvSend content])
  | NewTTSAudio pl => (Ok (next_source w), alloc_source w, [EvNewSource pl (next_source w)])
  | SubmitRequest src req =>
      match submit_failure O src req w with
      | Some d => (Err (QueueFullError d), w, [EvSubmit src req])
      | None => (Ok tt, set_queue src (queue_of w src ++ [req]) w, [EvSubmit src req])
      end
  | IsPlaying => (Ok (is_playing w), w, [EvIsPlaying (is_playing w)])
  | Play src =>
      match voice_client w with
      | None => (Err (ClientException "Not connected to voice."), w, [EvPlay src])
      | Some vc =>
          if is_playing w
          then (Err (ClientException "Already playing audio."), w, [EvPlay src])
          else
            (Ok tt,
             set_voice_client
               (Some {| channel := channel vc;
                        _player := Some {| source := src; playing := true |} |}) w,
             [EvPlay src])
      end
  | AddReaction msg emoji => (Ok tt, w, [EvAddReaction msg emoji])
  end.

(** One invocation run to completion, nothing else scheduled in between. *)
Fixpoint run {A} (p : Prog A) (w : World) : Result A * World * list Event :=
  match p with
  | Ret a => (Ok a, w, [])
  | Raise e => (Err e, w, [])
  | Await k => run k w
  | Vis op k =>
      match handle op w with
      | (Ok x, w1, t1) =>
          let '(r, w2, t2) := run (k x) w1 in (r, w2, t1 ++ t2)
      | (Err e, w1, t1) => (Err e, w1, t1)
      end
  end.

(** Run a coroutine up to its next suspension. *)
Fixpoint advance {A} (p : Prog A) (w : World) : Task A * World * list Event :=
  match p with
  | Ret a => (Finished (Ok a), w, [])
  | Raise e => (Finished (Err e), w, [])
  | Await k => (Suspended k, w, [])
  | Vis op k =>
      match handle op w with
      | (Ok x, w1, t1) =>
          let '(r, w2, t2) := advance (k x) w1 in (r, w2, t1 ++ t2)
      | (Err e, w1, t1) => (Finished (Err e), w1, t1)
      end
  end.

(** The event loop resumes task [i]; a finished task stays as it is. *)
Definition resume {A} (i : nat) (tasks : list (Task A)) (w : World)
  : list (Task A) * World * list Event :=
  match tasks !! i with
  | Some (Suspended p) =>
      let '(t, w1, tr) := advance p w in (<[i := t]> tasks, w1, tr)
  | _ => (tasks, w, [])
  end.

Fixpoint run_schedule {A} (schedule : list nat) (tasks : list (Task A)) (w : World)
  : list (Task A) * World * list Event :=
  match schedule with
  | [] => (tasks, w, [])
  | i :: rest =>
      let '(tasks1, w1, t1) := resume i tasks w in
      let '(tasks2, w2, t2) := run_schedule rest tasks1 w1 in
      (tasks2, w2, t1 ++ t2)
  end.
End Handler.

(** One invocation among others: [others k] is what the invocations that
    the event loop resumes during the [k]-th suspension of this one do to
    the state, counting from [k]; the calls returned are this invocation's
    own.  With [others] the identity this is [run]. *)
Fixpoint run_among {A} (O : Oracle) (others : nat -> World -> World) (k : nat)
    (p : Prog A) (w : World) : Result A * World * list Event :=
  match p with
  | Ret a => (Ok a, w, [])
  | Raise e => (Err e, w, [])
  | Await q => run_among O others (S k) q (others k w)
  | Vis op q =>
      match handle O op w with
      | (Ok x, w1, t1) =>
          let '(r, w2, t2) := run_among O others k (q x) w1 in (r, w2, t1 ++ t2)
      | (Err e, w1, t1) => (Err e, w1, t1)
      end
  end.

(** ** cogs/voice.py *)

(** [ctx.voice_client.<attribute>]: [None] has no attributes. *)
Definition the_voice_client (attribute : string) : Prog VoiceClient :=
  vc ← call GetVoiceClient;
  match vc with
  | Some v => Ret v
  | None =>
      Raise (AttributeError
               ("'NoneType' object has no attribute '" +:+ attribute +:+ "'"))
  end.

(** [ctx.author.voice.channel]. *)
Definition author_voice_channel (ctx : Context) : Prog VoiceChannel :=
  match author_voice ctx with
  | Some ch => Ret ch
  | None => Raise (AttributeError "'NoneType' object has no attribute 'channel'")
  end.

(** [Voice._connect]. *)
Definition _connect (ctx : Context) : Prog string :=
  vc ← call GetVoiceClient;
  match vc with
  | Some _ =>
      await (CanDisconnect ctx);;
      await (RequiredPermissions ctx);;
      (* Clear audio channel before moving Blabber *)
      vc ← the_voice_client "_player";
      match _player vc with
      | Some player => call (SourceClear (source player))
      | None => Ret tt
      end;;
      (* Move Blabber to the command invoker's voice channel *)
      _ ← the_voice_client "move_to";
      target ← author_voice_channel ctx;
      await (MoveTo target);;
      Ret "Moved"
  | None =>
      await (RequiredPermissions ctx);;
      (* Connect Blabber to the command invoker's voice channel *)
      target ← author_voice_channel ctx;
      await (ChannelConnect target);;
      Ret "Connected"
  end.

(** [Voice.disconnect]. *)
Definition disconnect (ctx : Context) : Prog unit :=
  vc ← call GetVoiceClient;
  match vc with
  | None =>
      await (Send ":information_source: **Blabber is not connected to any voice channel**")
  | Some _ =>
      await (CanDisconnect ctx);;
      (* Disconnect Blabber from voice channel *)
      _ ← the_voice_client "disconnect";
      await Disconnect;;
      await (Send ":white_check_mark: **Successfully disconnected**")
  end.

(** [ctx.voice_client and ctx.author.voice.channel == ctx.voice_client.channel]. *)
Definition in_invoker_channel (ctx : Context) : Prog bool :=
  vc ← call GetVoiceClient;
  match vc with
  | None => Ret false
  | Some _ =>
      target ← author_voice_channel ctx;
      vc ← the_voice_client "channel";
      Ret (channel_eqb target (channel vc))
  end.

(** [Voice.connect]. *)
Definition connect (ctx : Context) : Prog unit :=
  here ← in_invoker_channel ctx;
  if here : bool then
    await (Send ":information_source: **Blabber is already in this voice channel**")
  else
    operation ← _connect ctx;
    target ← author_voice_channel ctx;
    await (Send (":white_check_mark: **" +:+ operation +:+ " to** `" +:+ name target +:+ "`")).

(** [not ctx.voice_client or ctx.author.voice.channel != ctx.voice_client.channel]. *)
Definition not_in_invoker_channel (ctx : Context) : Prog bool :=
  vc ← call GetVoiceClient;
  match vc with
  | None => Ret true
  | Some _ =>
      target ← author_voice_channel ctx;
      vc ← the_voice_client "channel";
      Ret (negb (channel_eqb target (channel vc)))
  end.

(** [self.voices[alias]]: a missing key raises. *)
Definition voice_of (self : Voice) (alias : string) : Prog VoiceParams :=
  match voices self !! alias with
  | Some voice => Ret voice
  | None => Raise (KeyError alias)
  end.

(** [Voice.say]. *)
Definition say (self : Voice) (ctx : Context) (message : string) : Prog unit :=
  (* Ensure Blabber is connected to command invoker's voice channel *)
  elsewhere ← not_in_invoker_channel ctx;
  (if elsewhere : bool then _connect ctx;; Ret tt else Ret tt);;
  (* Check if AudioSource object already exists *)
  vc ← the_voice_client "_player";
  audio ← match _player vc with
          | Some player => Ret (source player)
          | None => call (NewTTSAudio (pool self))
          end;
  (* Retrieve command invoker's voice profile *)
  let alias := profile_of (voice_profiles self) (author ctx, invocation_channel ctx) in
  voice ← voice_of self alias;
  (* Submit TTS request *)
  let request := {| text := message; params := voice |} in
  await (SubmitRequest audio request);;
  (* Ensure AudioSource object is playing *)
  _ ← the_voice_client "is_playing";
  busy ← call IsPlaying;
  (if busy : bool then Ret tt else _ ← the_voice_client "play"; call (Play audio));;
  await (AddReaction (message_id ctx) "📣").

Definition single_quote : Ascii.ascii := Ascii.ascii_of_nat 39.
Definition double_quote : Ascii.ascii := Ascii.ascii_of_nat 34.
Definition backslash : Ascii.ascii := Ascii.ascii_of_nat 92.

Fixpoint occurs (c : Ascii.ascii) (s : string) : bool :=
  match s with
  | EmptyString => false
  | String c' s' => Ascii.eqb c c' || occurs c s'
  end.

Definition hex_digit (n : nat) : Ascii.ascii :=
  Ascii.ascii_of_nat (if n <? 10 then 48 + n else 87 + n).

(** One character of [repr(s)]: the quote in use and the backslash are
    escaped, tab, newline and return have their letter, the other control
    characters are written in hexadecimal, the rest is copied. *)
Definition escape (quote c : Ascii.ascii) : string :=
  let n := Ascii.nat_of_ascii c in
  if Ascii.eqb c quote || Ascii.eqb c backslash
  then String backslash (String c EmptyString)
  else if n =? 9 then String backslash "t"
  else if n =? 10 then String backslash "n"
  else if n =? 13 then String backslash "r"
  else if (n <? 32) || (n =? 127)
  then String backslash
         (String (Ascii.ascii_of_nat 120) (String (hex_digit (n / 16))
                        (String (hex_digit (n mod 16)) EmptyString)))
  else String c EmptyString.

Fixpoint escaped (quote : Ascii.ascii) (s : string) : string :=
  match s with
  | EmptyString => EmptyString
  | String c s' => escape quote c +:+ escaped quote s'
  end.

(** [repr(s)] of a string: in single quotes, in double quotes when it holds
    a single quote and no double quote.  Characters outside ASCII are
    copied, as Python does for the printable ones. *)
Definition repr (s : string) : string :=
  let quote :=
    if occurs single_quote s && negb (occurs double_quote s)
    then double_quote else single_quote in
  String quote (escaped quote s +:+ String quote EmptyString).

(** [str(error)]: the message of the error; of a [KeyError], the [repr] of
    the key. *)
Definition str (error : Exception) : string :=
  match error with
  | PermissionError d | QueueFullError d | BackendError d
  | ClientException d | AttributeError d => d
  | KeyError k => repr k
  end.

Definition newline : string := String (Ascii.ascii_of_nat 10) EmptyString.

(** [Voice.connect_error]. *)
Definition connect_error (ctx : Context) (error : Exception) : Prog unit :=
  (* Check what type of voice channel operation caused the error *)
  vc ← call GetVoiceClient;
  let operation := match vc with Some _ => "move" | None => "connect" end in
  await (Send (":x: **Unable to " +:+ operation +:+ "**" +:+ newline +:+ str error)).

(** [Voice.disconnect_error]. *)
Definition disconnect_error (ctx : Context) (error : Exception) : Prog unit :=
  await (Send (":x: **Unable to disconnect**" +:+ newline +:+ str error)).

(** [Voice.say_error]; [is_connect_error] stands for
    [isinstance(error, BlabberConnectError)], the class is in blabber.errors. *)
Definition say_error (is_connect_error : Exception -> bool)
    (ctx : Context) (error : Exception) : Prog unit :=
  if is_connect_error error then connect_error ctx error
  else await (Send (":x: **Unable to convert to speech**" +:+ newline +:+ str error)).

(** ** Concrete sessions, used to run the commands *)

Definition lobby : VoiceChannel := {| channel_id := 1; name := "Lobby" |}.
Definition lounge : VoiceChannel := {| channel_id := 2; name := "Lounge" |}.

Definition all_ok : Oracle :=
  {| disconnect_denied := fun _ _ => None;
     permissions_missing := fun _ _ => None;
     connect_failure := fun _ _ => None;
     move_failure := fun _ _ => None;
     disconnect_failure := fun _ => None;
     submit_failure := fun _ _ _ => None |}.

Definition move_times_out : Oracle :=
  {| disconnect_denied := fun _ _ => None;
     permissions_missing := fun _ _ => None;
     connect_failure := fun _ _ => None;
     move_failure := fun _ _ => Some "timed out";
     disconnect_failure := fun _ => None;
     submit_failure := fun _ _ _ => None |}.

Definition permission_missing : Oracle :=
  {| disconnect_denied := fun _ _ => None;
     permissions_missing := fun _ _ => Some "connect";
     connect_failure := fun _ _ => None;
     move_failure := fun _ _ => None;
     disconnect_failure := fun _ => None;
     submit_failure := fun _ _ _ => None |}.

Definition disconnect_times_out : Oracle :=
  {| disconnect_denied := fun _ _ => None;
     permissions_missing := fun _ _ => None;
     connect_failure := fun _ _ => None;
     move_failure := fun _ _ => None;
     disconnect_failure := fun _ => Some "timed out";
     submit_failure := fun _ _ _ => None |}.

Definition disconnect_refused : Oracle :=
  {| disconnect_denied := fun _ _ => Some "move_members";
     permissions_missing := fun _ _ => None;
     connect_failure := fun _ _ => None;
     move_failure := fun _ _ => None;
     disconnect_failure := fun _ => None;
     submit_failure := fun _ _ _ => None |}.

Definition queue_full : Oracle :=
  {| disconnect_denied := fun _ _ => None;
     permissions_missing := fun _ _ => None;
     connect_failure := fun _ _ => None;
     move_failure := fun _ _ => None;
     disconnect_failure := fun _ => None;
     submit_failure := fun _ _ _ => Some "queue is full" |}.

Definition english : VoiceParams := [("language", "en")].

Definition blabber : Voice :=
  {| pool := 7;
     voices := {[ "voice_1" := english ]};
     voice_profiles := {| registered := ∅; default_alias := "voice_1" |} |}.

Definition alice : Context :=
  {| author := 1; author_voice := Some lobby; invocation_channel := 10; message_id := 100 |}.
Definition bob : Context :=
  {| author := 2; author_voice := Some lobby; invocation_channel := 10; message_id := 101 |}.

(** An invoker in the lounge, and a cog whose table of voices is empty. *)
Definition carol : Context :=
  {| author := 3; author_voice := Some lounge; invocation_channel := 10; message_id := 102 |}.

Definition voiceless : Voice :=
  {| pool := 7;
     voices := ∅;
     voice_profiles := {| registered := ∅; default_alias := "voice_1" |} |}.

Definition french : VoiceParams := [("language", "fr")].

(** A cog where alice has registered a profile for the channel she writes in. *)
Definition tuned : Voice :=
  {| pool := 7;
     voices := {[ "voice_1" := english; "voice_2" := french ]};
     voice_profiles :=
       {| registered := {[ (1, 10) := "voice_2" ]}; default_alias := "voice_1" |} |}.

Definition hello : TTSRequest := {| text := "hello"; params := english |}.

Definition world : TTSRequest := {| text := "world"; params := english |}.

Definition absent : World :=
  {| voice_client := None; sources := ∅; next_source := 0 |}.

(** Connected to the lounge, playing source 0 with one pending request. *)
Definition speaking_in_lounge : World :=
  {| voice_client :=
       Some {| channel := lounge;
               _player := Some {| source := 0; playing := true |} |};
     sources := {[ 0 := [hello] ]};
     next_source := 1 |}.


(** What a [say] of "world" on the channel of the session does to the
    state when it runs during the third suspension of another invocation:
    its request joins the queue of source 0. *)
Definition submission_during_move (k : nat) (w : World) : World :=
  if k =? 2 then set_queue 0 (queue_of w 0 ++ [world]) w else w.

(** The event loop resumes a [say] while a [connect] awaits [move_to]. *)
Definition say_during_move : list nat := [0; 0; 0; 1; 1; 1; 0; 0].

(** Connected to the lounge, no player yet. *)
Definition idle_in_lounge : World :=
  {| voice_client := Some {| channel := lounge; _player := None |};
     sources := ∅;
     next_source := 0 |}.

(** A schedule of the event loop for two invocations: the first is resumed
    up to its [await] on the submission, then the second one starts. *)
Definition racing : list nat := [0; 0; 0; 1; 0; 1; 0; 1].

(** ** Proof steps *)

(** Unfold the cog down to the calls it makes. *)
Ltac unfold_cog :=
  unfold say, connect, disconnect, _connect, in_invoker_channel,
    not_in_invoker_channel, voice_of, the_voice_client, author_voice_channel,
    await, call, mbind, prog_bind in *.

(** Follow a run through every answer the collaborators can give. *)
Ltac run_cases :=
  unfold_cog; repeat (cbn in *; unfold check in *; simplify_eq; try case_match).

(** Membership in an explicit list of calls: as a hypothesis, as a goal. *)
Ltac split_elem H :=
  repeat (apply elem_of_cons in H as [H|H]; [try discriminate H|]);
  try (by apply elem_of_nil in H).

(** The same through the error handlers. *)
Ltac handler_cases :=
  unfold say_error, connect_error, disconnect_error in *; run_cases.

(** Turn the outcome of a channel comparison into a fact about the ids. *)
Ltac channel_facts :=
  unfold channel_eqb in *;
  repeat match goal with
    | H : negb _ = true |- _ => apply negb_true_iff in H
    | H : negb _ = false |- _ => apply negb_false_iff in H
    | H : bool_decide _ = true |- _ => apply bool_decide_eq_true in H
    | H : bool_decide _ = false |- _ => apply bool_decide_eq_false in H
    end.


Ltac find_elem :=
  repeat first [apply list_elem_of_here | apply list_elem_of_further].

(** ** Running programs *)

Lemma run_bind O {A B} (p : Prog A) (f : A -> Prog B) w :
  run O (p ≫= f) w =
  match run O p w with
  | (Ok a, w1, t1) => let '(r, w2, t2) := run O (f a) w1 in (r, w2, t1 ++ t2)
  | (Err e, w1, t1) => (Err e, w1, t1)
  end.
Proof.
  unfold mbind, prog_bind. revert w.
  induction p as [a|e|k IH|X op k IH]; intros w; cbn.
  - by destruct (run O (f a) w) as [[r w2] t2].
  - done.
  - apply IH.
  - destruct (handle O op w) as [[[x|e] w1] t1]; [|done].
    rewrite IH. destruct (run O (k x) w1) as [[[a|e] w2] t2]; [|done].
    destruct (run O (f a) w2) as [[r w3] t3]. by rewrite app_assoc.
Qed.

(** Running to completion is resuming the coroutine until it is done. *)
Lemma run_advance O {A} (p : Prog A) w :
  run O p w =
  match advance O p w with
  | (Finished r, w1, t1) => (r, w1, t1)
  | (Suspended k, w1, t1) => let '(r, w2, t2) := run O k w1 in (r, w2, t1 ++ t2)
  end.
Proof.
  revert w. induction p as [a|e|k IH|X op k IH]; intros w; cbn; try done.
  - by destruct (run O k w) as [[r w2] t2].
  - destruct (handle O op w) as [[[x|e] w1] t1]; [|done].
    rewrite IH. destruct (advance O (k x) w1) as [[[k'|r] w2] t2]; [|done].
    destruct (run O k' w2) as [[r w3] t3]. by rewrite app_assoc.
Qed.

(** An invocation that the event loop resumes alone, until it is done, does
    what [run] says. *)
Lemma run_alone O {A} (p : Prog A) w :
  exists n,
    run_schedule O (replicate (S n) 0) [Suspended p] w
    = (let '(r, w', t) := run O p w in ([Finished r], w', t)).
Proof.
  revert w. induction p as [a|e|k IH|X op k IH]; intros w.
  - by exists 0.
  - by exists 0.
  - destruct (IH w) as [n Hn]. exists (S n).
    change (replicate (S (S n)) 0) with (0 :: replicate (S n) 0).
    cbn [run_schedule resume lookup list_lookup advance run].
    cbn [insert list_insert]. rewrite Hn.
    by destruct (run O k w) as [[r w'] t].
  - cbn [run]. destruct (handle O op w) as [[[x|e] w1] t1] eqn:Hop.
    + destruct (IH x w1) as [n Hn]. exists n.
      change (replicate (S n) 0) with (0 :: replicate n 0) in *.
      cbn [run_schedule resume lookup list_lookup advance] in *.
      rewrite Hop. destruct (advance O (k x) w1) as [[tk w2] t2].
      cbn [insert list_insert] in *.
      destruct (run_schedule O (replicate n 0) [tk] w2) as [[tasks w3] t3].
      destruct (run O (k x) w1) as [[r w'] t].
      injection Hn as -> -> <-. by rewrite app_assoc.
    + exists 0. cbn [replicate run_schedule resume lookup list_lookup advance].
      rewrite Hop. by rewrite app_nil_r.
Qed.

(** ** The connect/move helper *)

(** Alone, an invocation runs as [run] says. *)
Lemma run_among_alone O {A} (others : nat -> World -> World) (p : Prog A) :
  (forall k w, others k w = w) ->
  forall k w, run_among O others k p w = run O p w.
Proof.
  intros Hid. induction p as [a|e|q IH|X op q IH]; intros k w; cbn; try done.
  - by rewrite Hid.
  - destruct (handle O op w) as [[[x|e] w1] t1]; [|done]. by rewrite IH.
Qed.

(** C1, as stated, fails: nothing keeps a [say] from being resumed while
    [_connect] awaits [move_to].  It submits to the source that has just
    been cleared, and its request is in the queue when the move completes. *)
Lemma say_during_move_refills_queue :
  exists w' t,
    run_schedule all_ok say_during_move
      [Suspended (connect alice); Suspended (say blabber carol "world")]
      speaking_in_lounge
    = ([Finished (Ok tt); Finished (Ok tt)], w', t)
    /\ voice_client w'
       = Some {| channel := lobby; _player := Some {| source := 0; playing := true |} |}
    /\ cleared t = [0]
    /\ queue_of w' 0 = [world]
    /\ queue_of w' 0 <> [].
Proof.
  eexists _, _. split; [reflexivity|]. repeat split. discriminate.
Qed.

(** The same race seen from the [connect]: with the state changed during
    its third suspension by what that [say] does when run to completion,
    [run_among] ends in the state the event loop ends in. *)
Example run_among_matches_schedule :
  (run_among all_ok
     (fun k w => if k =? 2 then (run all_ok (say blabber carol "world") w).1.2 else w)
     0 (connect alice) speaking_in_lounge).1.2
  = (run_schedule all_ok say_during_move
       [Suspended (connect alice); Suspended (say blabber carol "world")]
       speaking_in_lounge).1.2.
Proof. reflexivity. Qed.

(** C1, amended: when a session exists and has a player, and keeps it while
    [_connect] is suspended, [_connect] calls [clear] on the player's source
    right before it calls [move_to], whatever the other invocations do in
    between.  When no other invocation is resumed during the helper, the
    queue of that source is empty when the move completes. *)
Theorem connect_clears_before_move (O : Oracle) (ctx : Context)
    (others : nat -> World -> World) (w : World)
    (vc : VoiceClient) (p : AudioPlayer) r w' t :
  voice_client w = Some vc -> _player vc = Some p ->
  (forall k w0, source <$> current_player w0 = Some (source p) ->
                source <$> current_player (others k w0) = Some (source p)) ->
  run_among O others 0 (_connect ctx) w = (r, w', t) ->
  (forall ch, EvMoveTo ch ∈ t ->
     exists t1 t2, t = t1 ++ EvClear (source p) :: EvMoveTo ch :: t2)
  /\ ((forall k w0, others k w0 = w0) ->
      forall op, r = Ok op ->
        op = "Moved" /\ queue_of w' (source p) = [] /\
        exists target, author_voice ctx = Some target /\
          t = [EvCanDisconnect; EvRequiredPermissions; EvClear (source p);
               EvMoveTo target]).
Proof.
  intros Hvc Hp Hkeeps Hrun. split.
  - assert (source <$> current_player w = Some (source p)) as H0
      by (unfold current_player; by rewrite Hvc, Hp).
    pose proof (Hkeeps 0 _ H0) as H1. pose proof (Hkeeps 1 _ H1) as H2.
    destruct w as [v srcs nxt]. cbn in Hvc. subst v.
    unfold_cog. cbn in Hrun.
    destruct (others 0 _) as [v1 srcs1 nxt1].
    destruct (others 1 _) as [[vc2|] srcs2 nxt2]; cbn in H2;
      [|discriminate H2].
    destruct (_player vc2) as [p2|] eqn:Hp2; cbn in H2; [|discriminate H2].
    clear H0 H1 Hkeeps. injection H2 as <-.
    run_cases; intros ch Hin; split_elem Hin; simplify_eq.
    all: by exists [EvCanDisconnect; EvRequiredPermissions], [].
  - intros Halone op Hop. rewrite (run_among_alone O others _ Halone) in Hrun.
    destruct w as [v srcs nxt]. cbn in Hvc. subst v.
    run_cases. split; [done|]. split; [|by eexists].
    unfold queue_of. cbn. by rewrite lookup_insert_eq.
Qed.

Lemma connect_clears_before_move_witness :
  voice_client speaking_in_lounge
    = Some {| channel := lounge; _player := Some {| source := 0; playing := true |} |}
  /\ queue_of speaking_in_lounge 0 = [hello]
  /\ (exists r w' t,
        run_among all_ok (fun _ w => w) 0 (_connect alice) speaking_in_lounge
        = (r, w', t)
        /\ t = [EvCanDisconnect; EvRequiredPermissions; EvClear 0; EvMoveTo lobby]
        /\ queue_of w' 0 = [])
  /\ (exists r w' t,
        run_among all_ok submission_during_move 0 (_connect alice) speaking_in_lounge
        = (r, w', t)
        /\ (exists t1 t2, t = t1 ++ EvClear 0 :: EvMoveTo lobby :: t2)
        /\ queue_of w' 0 = [world]).
Proof.
  split; [reflexivity|]. split; [reflexivity|]. split.
  - destruct (run_among all_ok (fun _ w => w) 0 (_connect alice) speaking_in_lounge)
      as [[r w'] t] eqn:Hrun.
    exists r, w', t. split; [reflexivity|].
    pose proof (connect_clears_before_move all_ok alice (fun _ w => w)
                  speaking_in_lounge
                  _ {| source := 0; playing := true |} r w' t
                  eq_refl eq_refl (fun _ _ H => H) Hrun) as [_ Hq].
    assert (r = Ok "Moved") as Hr.
    { vm_compute in Hrun. congruence. }
    destruct (Hq (fun _ _ => eq_refl) _ Hr) as (_ & Hempty & target & Htarget & ->).
    cbn in Htarget. by simplify_eq.
  - destruct (run_among all_ok submission_during_move 0 (_connect alice)
                speaking_in_lounge) as [[r w'] t] eqn:Hrun.
    exists r, w', t. split; [reflexivity|].
    assert (forall k w0,
              source <$> current_player w0 = Some 0 ->
              source <$> current_player (submission_during_move k w0) = Some 0)
      as Hkeeps.
    { intros k w0 H. unfold submission_during_move. by destruct (k =? 2). }
    pose proof (connect_clears_before_move all_ok alice submission_during_move
                  speaking_in_lounge
                  _ {| source := 0; playing := true |} r w' t
                  eq_refl eq_refl Hkeeps Hrun) as [Horder _].
    vm_compute in Hrun. simplify_eq. split; [|reflexivity].
    apply Horder. find_elem.
Defined.



(** ** The commands *)

(** C4: when a session exists on the invoker's channel, [connect] only sends
    the already-in-this-channel message: no check, no backend call, and the
    session is as it was. *)
Theorem connect_already_present (O : Oracle) (ctx : Context) (w : World)
    (vc : VoiceClient) (target : VoiceChannel) :
  voice_client w = Some vc -> author_voice ctx = Some target ->
  channel_id target = channel_id (channel vc) ->
  run O (connect ctx) w
  = (Ok tt, w, [EvSend ":information_source: **Blabber is already in this voice channel**"]).
Proof.
  intros Hvc Htarget Hid. unfold_cog. cbn. rewrite Hvc. cbn.
  rewrite Htarget. cbn. rewrite Hvc. cbn.
  unfold channel_eqb. by rewrite bool_decide_eq_true_2.
Qed.

Lemma connect_already_present_witness :
  run all_ok (connect {| author := 3; author_voice := Some lounge;
                         invocation_channel := 10; message_id := 102 |})
      speaking_in_lounge
  = (Ok tt, speaking_in_lounge,
     [EvSend ":information_source: **Blabber is already in this voice channel**"]).
Proof.
  by apply (connect_already_present all_ok _ speaking_in_lounge
              {| channel := lounge; _player := Some {| source := 0; playing := true |} |}
              lounge).
Defined.

(** C10: with no session, [disconnect] only sends the not-connected
    message: [can_disconnect] is not called, [disconnect] is not called on
    the backend and the session is as it was. *)
Theorem disconnect_when_absent (O : Oracle) (ctx : Context) (w : World) :
  voice_client w = None ->
  run O (disconnect ctx) w
  = (Ok tt, w,
     [EvSend ":information_source: **Blabber is not connected to any voice channel**"]).
Proof.
  intros Hvc. unfold_cog. cbn. by rewrite Hvc.
Qed.

Lemma disconnect_when_absent_witness :
  run all_ok (disconnect alice) absent
  = (Ok tt, absent,
     [EvSend ":information_source: **Blabber is not connected to any voice channel**"]).
Proof.
  by apply (disconnect_when_absent all_ok alice absent).
Defined.

(** The check of [disconnect] is called only when a session exists. *)
Lemma disconnect_check_needs_session (O : Oracle) (ctx : Context) (w : World) r w' t :
  run O (disconnect ctx) w = (r, w', t) ->
  EvCanDisconnect ∈ t -> is_Some (voice_client w).
Proof.
  intros Hrun Hin. destruct w as [[v|] srcs nxt]; [by eexists|].
  run_cases. split_elem Hin.
Qed.

(** ** Failure of a backend call *)

(** C3, as stated, fails: the move of a session with a player clears the
    queue of the player's source before [move_to] is called, and nothing
    restores it when [move_to] then fails. *)
Lemma failed_move_leaves_queue_cleared :
  exists w' t,
    run move_times_out (_connect alice) speaking_in_lounge
    = (Err (BackendError "timed out"), w', t)
    /\ queue_of speaking_in_lounge 0 = [hello]
    /\ queue_of w' 0 = []
    /\ w' <> speaking_in_lounge.
Proof.
  eexists _, _. split; [reflexivity|]. split; [reflexivity|].
  split; [reflexivity|].
  intros Heq. apply (f_equal (fun w => queue_of w 0)) in Heq. discriminate Heq.
Qed.

(** C3, amended: when the backend call of [_connect] or [disconnect] fails,
    the session (its channel and its player) is as it was before the
    operation, no source has been created, and the queues are as they were
    but for the one of the player's source in a move, which has been
    cleared.  For a connect and for a disconnect nothing has changed. *)
Theorem backend_failure_state (O : Oracle) (ctx : Context) (w : World) d w' t :
  (run O (_connect ctx) w = (Err (BackendError d), w', t) ->
   w' = match current_player w with
        | Some p => set_queue (source p) [] w
        | None => w
        end)
  /\ (run O (disconnect ctx) w = (Err (BackendError d), w', t) -> w' = w).
Proof.
  destruct w as [v srcs nxt].
  split; intros Hrun; run_cases; done.
Qed.

(** A failed permission check of [_connect] leaves the state as it was. *)
Lemma connect_permission_failure (O : Oracle) (ctx : Context) (w : World) m w' t :
  run O (_connect ctx) w = (Err (PermissionError m), w', t) -> w' = w.
Proof.
  intros Hrun. destruct w as [v srcs nxt]. run_cases; done.
Qed.

Lemma backend_failure_state_witness :
  (exists w' t,
     run move_times_out (_connect alice) speaking_in_lounge
     = (Err (BackendError "timed out"), w', t)
     /\ w' = set_queue 0 [] speaking_in_lounge)
  /\ (exists w' t,
        run disconnect_times_out (disconnect alice) speaking_in_lounge
        = (Err (BackendError "timed out"), w', t)
        /\ w' = speaking_in_lounge).
Proof.
  split; eexists _, _; (split; [reflexivity|]).
  - apply (backend_failure_state move_times_out alice speaking_in_lounge
             "timed out" _
             [EvCanDisconnect; EvRequiredPermissions; EvClear 0; EvMoveTo lobby]).
    reflexivity.
  - apply (backend_failure_state disconnect_times_out alice speaking_in_lounge
             "timed out" _ [EvCanDisconnect; EvDisconnect]).
    reflexivity.
Defined.

(** ** Speech dispatch *)

(** A [say] on a session with a player creates no source and submits to the
    player's source only. *)
Lemma say_reuses_player (O : Oracle) (self : Voice) (ctx : Context) (msg : string)
    (w : World) (p : AudioPlayer) r w' t :
  current_player w = Some p ->
  run O (say self ctx msg) w = (r, w', t) ->
  created t = []
  /\ (forall src req, (src, req) ∈ submitted t -> src = source p)
  /\ (r = Ok tt -> exists voice,
        submitted t = [(source p, {| text := msg; params := voice |})]).
Proof.
  intros Hp Hrun. destruct w as [[v|] srcs nxt]; [|done]. cbn in Hp.
  run_cases;
    (split; [done|split; [intros src req Hin; split_elem Hin|intros Hok]]);
    simplify_eq; eauto.
Qed.

(** A [say] on a session without a player, or with no session, submits
    only to a source it has created, bound to the pool of the cog; when it
    succeeds that source is the player's. *)
Lemma say_creates_when_idle (O : Oracle) (self : Voice) (ctx : Context)
    (msg : string) (w : World) r w' t :
  current_player w = None ->
  run O (say self ctx msg) w = (r, w', t) ->
  (forall src req, (src, req) ∈ submitted t ->
     src = next_source w /\ created t = [src] /\ EvNewSource (pool self) src ∈ t)
  /\ (r = Ok tt -> exists voice,
        created t = [next_source w]
        /\ submitted t = [(next_source w, {| text := msg; params := voice |})]
        /\ current_player w' = Some {| source := next_source w; playing := true |}).
Proof.
  intros Hp Hrun. destruct w as [[v|] srcs nxt]; cbn in Hp.
  all: run_cases; (split; [intros src req Hin; split_elem Hin|intros Hok]);
    simplify_eq; eauto.
  all: split; [done|]; split; [done|]; find_elem.
Qed.

(** C6: [say] submits to the source of the session's player when there is
    one, and then creates no source; otherwise it submits to a source it has
    just created with the pool of the cog, the only one it creates.  It
    makes that one submission unless it has failed before: in its
    connection step, on the invoker's missing voice state or on the voice
    missing from the table. *)
Theorem say_audio_source (O : Oracle) (self : Voice) (ctx : Context)
    (msg : string) (w : World) r w' t :
  run O (say self ctx msg) w = (r, w', t) ->
  let audio := match current_player w with
               | Some p => source p
               | None => next_source w
               end in
  let alias := profile_of (voice_profiles self) (author ctx, invocation_channel ctx) in
  match current_player w with
  | Some p =>
      created t = [] /\ forall src req, (src, req) ∈ submitted t -> src = source p
  | None =>
      forall src req, (src, req) ∈ submitted t ->
        created t = [src] /\ EvNewSource (pool self) src ∈ t
  end
  /\ (submitted t = []
      \/ exists voice, submitted t = [(audio, {| text := msg; params := voice |})])
  /\ (submitted t = [] ->
      exists e, r = Err e
        /\ (author_voice ctx = None
               /\ e = AttributeError "'NoneType' object has no attribute 'channel'"
            \/ run O (_connect ctx) w = (Err e, w', t)
            \/ e = KeyError alias /\ voices self !! alias = None)).
Proof.
  intros Hrun audio alias. subst audio alias. split; [|split].
  - destruct (current_player w) as [p|] eqn:Hp.
    + destruct (say_reuses_player O self ctx msg w p r w' t Hp Hrun) as (? & ? & _).
      done.
    + intros src req Hin.
      destruct (say_creates_when_idle O self ctx msg w r w' t Hp Hrun) as [Hsub _].
      by destruct (Hsub src req Hin) as (_ & ? & ?).
  - destruct w as [[v|] srcs nxt]; run_cases; eauto.
  - intros Hnone. destruct w as [[v|] srcs nxt]; run_cases; eauto 8.
Qed.

Lemma say_audio_source_witness :
  (exists r w' t,
     run all_ok (say blabber alice "hello") absent = (r, w', t)
     /\ created t = [0] /\ submitted t = [(0, hello)])
  /\ (exists r w' t,
        run all_ok (say blabber carol "world") speaking_in_lounge = (r, w', t)
        /\ created t = [] /\ submitted t = [(0, world)]).
Proof.
  split.
  - destruct (run all_ok (say blabber alice "hello") absent) as [[r w'] t] eqn:Hrun.
    exists r, w', t. split; [done|].
    destruct (say_audio_source all_ok blabber alice "hello" absent r w' t Hrun)
      as (Hsrc & Hone & _).
    vm_compute in Hrun. simplify_eq. split; [|reflexivity].
    apply (Hsrc 0 hello). cbn. find_elem.
  - destruct (run all_ok (say blabber carol "world") speaking_in_lounge)
      as [[r w'] t] eqn:Hrun.
    exists r, w', t. split; [done|].
    destruct (say_audio_source all_ok blabber carol "world" speaking_in_lounge
                r w' t Hrun) as ([Hcreated _] & [Hone|[voice Hone]] & Hnone).
    + destruct (Hnone Hone) as (e & He & _).
      vm_compute in Hrun. simplify_eq.
    + split; [exact Hcreated|]. rewrite Hone.
      vm_compute in Hrun. simplify_eq. cbn in Hone. by simplify_eq.
Defined.



(** C8: when there is no session, or the session is on another channel than
    the invoker's, [say] starts by running [_connect]; when [_connect] fails
    [say] fails with the same error in the same state, having issued the
    calls of [_connect] only: no source is created and nothing is submitted. *)
Theorem say_connects_first (O : Oracle) (self : Voice) (ctx : Context)
    (msg : string) (w : World) r1 w1 t1 :
  (voice_client w = None
   \/ exists vc target,
        voice_client w = Some vc /\ author_voice ctx = Some target
        /\ channel_id target <> channel_id (channel vc)) ->
  run O (_connect ctx) w = (r1, w1, t1) ->
  (exists r w' t2, run O (say self ctx msg) w = (r, w', t1 ++ t2))
  /\ (forall e, r1 = Err e ->
        run O (say self ctx msg) w = (Err e, w1, t1)
        /\ created t1 = [] /\ submitted t1 = []).
Proof.
  intros Hneed Hconn.
  destruct (run O (say self ctx msg) w) as [[r w'] t] eqn:Hsay.
  destruct w as [v srcs nxt]. cbn in Hneed.
  destruct Hneed as [->|(vc & target & -> & Htarget & Hid)].
  - run_cases; (split; [by eexists _, _, _|intros e He; by simplify_eq]).
  - unfold_cog. cbn in Hsay, Hconn. rewrite Htarget in Hsay, Hconn.
    cbn in Hsay. unfold channel_eqb in Hsay.
    rewrite bool_decide_eq_false_2 in Hsay by done.
    run_cases; (split; [by eexists _, _, _|intros e He; by simplify_eq]).
Qed.

Lemma say_connects_first_witness :
  voice_client absent = None
  /\ run permission_missing (say blabber alice "hello") absent
     = (Err (PermissionError "connect"), absent, [EvRequiredPermissions]).
Proof.
  split; [reflexivity|].
  by apply (say_connects_first permission_missing blabber alice "hello" absent
              (Err (PermissionError "connect")) absent [EvRequiredPermissions]
              (or_introl eq_refl) eq_refl).
Defined.

(** C9: [say] looks the voice profile up under the pair of the invoker and
    the channel of the invocation: the registered profile, the default one
    when none is registered.  The request it submits carries the message
    and the voice of that profile, and it does submit it unless the
    connection step has failed or the table of voices has no such voice:
    the lookup of the pair itself never fails, a [KeyError] can only come
    from the table of voices. *)
Theorem say_resolves_profile (O : Oracle) (self : Voice) (ctx : Context)
    (msg : string) (w : World) r w' t :
  run O (say self ctx msg) w = (r, w', t) ->
  let alias :=
    match registered (voice_profiles self) !! (author ctx, invocation_channel ctx) with
    | Some registered_alias => registered_alias
    | None => default_alias (voice_profiles self)
    end in
  (forall src req, (src, req) ∈ submitted t ->
     exists voice, voices self !! alias = Some voice
                   /\ req = {| text := msg; params := voice |})
  /\ (forall k, r = Err (KeyError k) -> k = alias /\ voices self !! alias = None)
  /\ (submitted t = [] ->
      exists e, r = Err e
        /\ (author_voice ctx = None
               /\ e = AttributeError "'NoneType' object has no attribute 'channel'"
            \/ run O (_connect ctx) w = (Err e, w', t)
            \/ e = KeyError alias /\ voices self !! alias = None))
  /\ (r = Ok tt ->
      exists src voice,
        voices self !! alias = Some voice
        /\ submitted t = [(src, {| text := msg; params := voice |})]).
Proof.
  intros Hrun alias.
  change alias
    with (profile_of (voice_profiles self) (author ctx, invocation_channel ctx)).
  clear alias. split; [|split; [|split]].
  - destruct w as [[v|] srcs nxt].
    all: run_cases; intros src req Hin; split_elem Hin; simplify_eq; eauto.
  - destruct w as [[v|] srcs nxt].
    all: run_cases; intros k Hk; simplify_eq; eauto.
  - intros Hnone. destruct w as [[v|] srcs nxt]; run_cases; eauto 8.
  - intros Hok. destruct w as [[v|] srcs nxt]; run_cases; eauto.
Qed.

Lemma say_resolves_profile_witness :
  (registered (voice_profiles tuned) !! (author bob, invocation_channel bob) = None
   /\ exists w' t,
        run all_ok (say tuned bob "hello") absent = (Ok tt, w', t)
        /\ submitted t = [(0, {| text := "hello"; params := english |})])
  /\ (registered (voice_profiles tuned) !! (author alice, invocation_channel alice)
      = Some "voice_2"
      /\ exists w' t,
           run all_ok (say tuned alice "hello") absent = (Ok tt, w', t)
           /\ submitted t = [(0, {| text := "hello"; params := french |})]).
Proof.
  split; (split; [reflexivity|]).
  - destruct (run all_ok (say tuned bob "hello") absent) as [[r w'] t] eqn:Hrun.
    assert (r = Ok tt) as -> by (vm_compute in Hrun; congruence).
    exists w', t. split; [done|].
    destruct (say_resolves_profile all_ok tuned bob "hello" absent _ w' t Hrun)
      as (_ & _ & _ & Hok).
    destruct (Hok eq_refl) as (src & voice & Hvoice & Hsub).
    vm_compute in Hvoice. simplify_eq.
    vm_compute in Hrun. simplify_eq. reflexivity.
  - destruct (run all_ok (say tuned alice "hello") absent) as [[r w'] t] eqn:Hrun.
    assert (r = Ok tt) as -> by (vm_compute in Hrun; congruence).
    exists w', t. split; [done|].
    destruct (say_resolves_profile all_ok tuned alice "hello" absent _ w' t Hrun)
      as (_ & _ & _ & Hok).
    destruct (Hok eq_refl) as (src & voice & Hvoice & Hsub).
    vm_compute in Hvoice. simplify_eq.
    vm_compute in Hrun. simplify_eq. reflexivity.
Defined.

(** ** Interleaved invocations *)

(** C2, as stated, fails: nothing serializes two [say] on one session.
    Interleaved at their [await]s, each creates a source; the second request
    lands in a source that no player reads. *)
Lemma concurrent_say_creates_two_sources :
  exists w' t,
    run_schedule all_ok racing
      [Suspended (say blabber alice "hello"); Suspended (say blabber bob "world")]
      absent
    = ([Finished (Ok tt); Finished (Ok tt)], w', t)
    /\ created t = [0; 1]
    /\ submitted t = [(0, hello); (1, world)]
    /\ current_player w' = Some {| source := 0; playing := true |}
    /\ queue_of w' 0 = [hello]
    /\ queue_of w' 1 = [world].
Proof.
  eexists _, _. split; [reflexivity|]. repeat split.
Qed.

(** C2, amended: when a [say] on a session with no player has completed
    before the next [say] on that session starts, exactly one source is
    created and both are submitted to it.  The code takes no lock: this
    holds for invocations that run one after the other. *)
Theorem sequential_say_one_source (O : Oracle) (self : Voice)
    (ctx1 ctx2 : Context) (msg1 msg2 : string) (w w1 w2 : World) t1 r2 t2 :
  current_player w = None ->
  run O (say self ctx1 msg1) w = (Ok tt, w1, t1) ->
  run O (say self ctx2 msg2) w1 = (r2, w2, t2) ->
  exists src voice1,
    created (t1 ++ t2) = [src]
    /\ submitted t1 = [(src, {| text := msg1; params := voice1 |})]
    /\ (forall s req, (s, req) ∈ submitted (t1 ++ t2) -> s = src)
    /\ (r2 = Ok tt -> exists voice2,
          submitted (t1 ++ t2)
          = [(src, {| text := msg1; params := voice1 |});
             (src, {| text := msg2; params := voice2 |})]).
Proof.
  intros Hidle Hrun1 Hrun2.
  destruct (say_creates_when_idle O self ctx1 msg1 w _ w1 t1 Hidle Hrun1)
    as [_ Hok]. destruct (Hok eq_refl) as (voice1 & Hc1 & Hs1 & Hp1).
  destruct (say_reuses_player O self ctx2 msg2 w1 _ r2 w2 t2 Hp1 Hrun2)
    as (Hc2 & Hs2 & Hok2). cbn in Hs2.
  exists (next_source w), voice1.
  unfold created, submitted in *. rewrite !omap_app.
  fold (created t1) (created t2) (submitted t1) (submitted t2).
  unfold created, submitted in *.
  rewrite Hc1, Hc2, Hs1. split; [done|]. split; [done|]. split.
  - intros s req [Hin|Hin]%elem_of_app; [|by eapply Hs2].
    apply list_elem_of_singleton in Hin. by simplify_eq.
  - intros Hr2. destruct (Hok2 Hr2) as [voice2 ->]. by exists voice2.
Qed.

Lemma sequential_say_one_source_witness :
  current_player absent = None
  /\ exists w1 t1 w2 t2,
       run all_ok (say blabber alice "hello") absent = (Ok tt, w1, t1)
       /\ run all_ok (say blabber bob "world") w1 = (Ok tt, w2, t2)
       /\ created (t1 ++ t2) = [0]
       /\ submitted (t1 ++ t2) = [(0, hello); (0, world)].
Proof.
  split; [reflexivity|].
  destruct (run all_ok (say blabber alice "hello") absent) as [[r1 w1] t1] eqn:Hrun1.
  assert (r1 = Ok tt) as -> by (vm_compute in Hrun1; congruence).
  destruct (run all_ok (say blabber bob "world") w1) as [[r2 w2] t2] eqn:Hrun2.
  assert (r2 = Ok tt) as ->.
  { vm_compute in Hrun1. simplify_eq. vm_compute in Hrun2. congruence. }
  exists w1, t1, w2, t2. split; [done|]. split; [done|].
  destruct (sequential_say_one_source all_ok blabber alice bob "hello" "world"
              absent w1 w2 t1 (Ok tt) t2 eq_refl Hrun1 Hrun2)
    as (src & voice1 & Hc & _ & _ & _).
  vm_compute in Hrun1. simplify_eq. vm_compute in Hrun2. simplify_eq.
  split; reflexivity.
Defined.

(** Run one after the other by the event loop, the two invocations of the
    race above share the one source. *)
Example serial_say_shares_source :
  exists tasks w' t,
    run_schedule all_ok [0; 0; 0; 0; 0; 1; 1; 1]
      [Suspended (say blabber alice "hello"); Suspended (say blabber bob "world")]
      absent
    = (tasks, w', t)
    /\ created t = [0] /\ submitted t = [(0, hello); (0, world)].
Proof.
  eexists _, _, _. split; [reflexivity|]. split; reflexivity.
Qed.

(** ** Error handlers *)

(** [say_error] hands a connect error to [connect_error], which names the
    operation after the session it finds. *)
Lemma say_error_connect (O : Oracle) (is_connect_error : Exception -> bool)
    (ctx : Context) (error : Exception) (w : World) :
  is_connect_error error = true ->
  run O (say_error is_connect_error ctx error) w
  = (Ok tt, w,
     [EvSend (":x: **Unable to "
              +:+ match voice_client w with Some _ => "move" | None => "connect" end
              +:+ "**" +:+ newline +:+ str error)]).
Proof.
  intros Hkind. unfold say_error, connect_error. rewrite Hkind.
  unfold_cog. cbn. by destruct (voice_client w).
Qed.

(** ** More on [disconnect] *)

(** X1: when the invoker may not disconnect Blabber, [disconnect] fails with
    that error after the check alone: the backend is not called, no message
    is sent and the state is as it was. *)
Theorem disconnect_denied_no_call (O : Oracle) (ctx : Context) (w : World)
    (vc : VoiceClient) (m : string) :
  voice_client w = Some vc ->
  disconnect_denied O ctx w = Some m ->
  run O (disconnect ctx) w = (Err (PermissionError m), w, [EvCanDisconnect]).
Proof.
  intros Hvc Hdenied. destruct w as [v srcs nxt]. cbn in Hvc. subst v.
  unfold_cog. cbn. by rewrite Hdenied.
Qed.

Lemma disconnect_denied_no_call_witness :
  run disconnect_refused (disconnect alice) speaking_in_lounge
  = (Err (PermissionError "move_members"), speaking_in_lounge, [EvCanDisconnect]).
Proof.
  by apply (disconnect_denied_no_call disconnect_refused alice speaking_in_lounge
              {| channel := lounge; _player := Some {| source := 0; playing := true |} |}
              "move_members").
Defined.

(** X2: a [disconnect] that succeeds on a session has called the check, then
    the backend, then sent the confirmation; the session is gone, and the
    sources and their queues are as they were. *)
Theorem disconnect_removes_session (O : Oracle) (ctx : Context) (w : World)
    (vc : VoiceClient) w' t :
  voice_client w = Some vc ->
  run O (disconnect ctx) w = (Ok tt, w', t) ->
  t = [EvCanDisconnect; EvDisconnect;
       EvSend ":white_check_mark: **Successfully disconnected**"]
  /\ voice_client w' = None
  /\ sources w' = sources w /\ next_source w' = next_source w.
Proof.
  intros Hvc Hrun. destruct w as [v srcs nxt]. cbn in Hvc. subst v.
  run_cases. done.
Qed.

Lemma disconnect_removes_session_witness :
  exists w' t,
    run all_ok (disconnect alice) speaking_in_lounge = (Ok tt, w', t)
    /\ voice_client w' = None /\ queue_of w' 0 = [hello].
Proof.
  destruct (run all_ok (disconnect alice) speaking_in_lounge) as [[r w'] t] eqn:Hrun.
  assert (r = Ok tt) as -> by (vm_compute in Hrun; congruence).
  exists w', t. split; [done|].
  destruct (disconnect_removes_session all_ok alice speaking_in_lounge _ w' t
              eq_refl Hrun) as (_ & Hvc & Hsrc & _).
  split; [done|]. unfold queue_of. by rewrite Hsrc.
Defined.

(** X3: whatever its outcome, [disconnect] never clears, creates or feeds a
    source and never starts playback, and a [disconnect] that fails leaves
    the state as it was and sends nothing. *)
Theorem disconnect_leaves_audio (O : Oracle) (ctx : Context) (w : World) r w' t :
  run O (disconnect ctx) w = (r, w', t) ->
  cleared t = [] /\ created t = [] /\ submitted t = [] /\ played t = []
  /\ sources w' = sources w
  /\ (forall e, r = Err e -> w' = w /\ sent t = []).
Proof.
  intros Hrun. destruct w as [v srcs nxt].
  run_cases; repeat split; try done; intros e He; by simplify_eq.
Qed.

Lemma disconnect_leaves_audio_witness :
  exists r w' t,
    run disconnect_times_out (disconnect alice) speaking_in_lounge = (r, w', t)
    /\ w' = speaking_in_lounge /\ sent t = [].
Proof.
  destruct (run disconnect_times_out (disconnect alice) speaking_in_lounge)
    as [[r w'] t] eqn:Hrun.
  exists r, w', t. split; [done|].
  destruct (disconnect_leaves_audio disconnect_times_out alice speaking_in_lounge
              r w' t Hrun) as (_ & _ & _ & _ & _ & Hfail).
  assert (r = Err (BackendError "timed out")) as Hr
    by (vm_compute in Hrun; congruence).
  exact (Hfail _ Hr).
Defined.

(** X4: [disconnect] is idempotent: after a [disconnect] that succeeded, a
    second one only reports that Blabber is not connected. *)
Theorem disconnect_twice (O : Oracle) (ctx ctx' : Context) (w w1 : World) t1 :
  run O (disconnect ctx) w = (Ok tt, w1, t1) ->
  run O (disconnect ctx') w1
  = (Ok tt, w1,
     [EvSend ":information_source: **Blabber is not connected to any voice channel**"]).
Proof.
  intros Hrun. destruct w as [v srcs nxt]. run_cases; done.
Qed.

Lemma disconnect_twice_witness :
  exists w1 t1,
    run all_ok (disconnect alice) speaking_in_lounge = (Ok tt, w1, t1)
    /\ run all_ok (disconnect bob) w1
       = (Ok tt, w1,
          [EvSend ":information_source: **Blabber is not connected to any voice channel**"]).
Proof.
  destruct (run all_ok (disconnect alice) speaking_in_lounge) as [[r w1] t1] eqn:Hrun.
  assert (r = Ok tt) as -> by (vm_compute in Hrun; congruence).
  exists w1, t1. split; [done|].
  exact (disconnect_twice all_ok alice bob speaking_in_lounge w1 t1 Hrun).
Defined.

(** ** More on [_connect] *)

(** X5: on a session, [_connect] asks [can_disconnect] first and the
    required permissions second; when either fails the helper fails with
    that error and the state as it was, and the later calls are not made.
    Nothing is cleared unless both checks have passed. *)
Theorem move_checks_in_order (O : Oracle) (ctx : Context) (w : World)
    (vc : VoiceClient) r w' t :
  voice_client w = Some vc ->
  run O (_connect ctx) w = (r, w', t) ->
  (forall m, disconnect_denied O ctx w = Some m ->
     r = Err (PermissionError m) /\ w' = w /\ t = [EvCanDisconnect])
  /\ (forall m, disconnect_denied O ctx w = None ->
        permissions_missing O ctx w = Some m ->
        r = Err (PermissionError m) /\ w' = w
        /\ t = [EvCanDisconnect; EvRequiredPermissions])
  /\ (cleared t <> [] ->
        disconnect_denied O ctx w = None /\ permissions_missing O ctx w = None).
Proof.
  intros Hvc Hrun. destruct w as [v srcs nxt]. cbn in Hvc. subst v.
  run_cases; (split; [intros m Hm|split; [intros m Hm1 Hm2|intros Hc]]);
    simplify_eq; done.
Qed.

Lemma move_checks_in_order_witness :
  run disconnect_refused (_connect alice) speaking_in_lounge
  = (Err (PermissionError "move_members"), speaking_in_lounge, [EvCanDisconnect]).
Proof.
  destruct (run disconnect_refused (_connect alice) speaking_in_lounge)
    as [[r w'] t] eqn:Hrun.
  destruct (move_checks_in_order disconnect_refused alice speaking_in_lounge _
              r w' t eq_refl Hrun) as (Hdenied & _).
  destruct (Hdenied "move_members" eq_refl) as (-> & -> & ->). reflexivity.
Defined.

(** X6: moving a session that has no player calls [clear] on nothing and
    leaves every queue as it was; when the move completes the session is on
    the invoker's channel, still without a player. *)
Theorem move_without_player (O : Oracle) (ctx : Context) (w : World)
    (vc : VoiceClient) r w' t :
  voice_client w = Some vc -> _player vc = None ->
  run O (_connect ctx) w = (r, w', t) ->
  cleared t = [] /\ sources w' = sources w
  /\ (forall op, r = Ok op ->
        op = "Moved" /\
        exists target, author_voice ctx = Some target
          /\ voice_client w' = Some {| channel := target; _player := None |}
          /\ t = [EvCanDisconnect; EvRequiredPermissions; EvMoveTo target]).
Proof.
  intros Hvc Hp Hrun. destruct w as [v srcs nxt]. cbn in Hvc. subst v.
  run_cases; (split; [done|split; [done|intros op Hop]]); simplify_eq.
  split; [done|]. eexists. split; [done|]. split; [|done].
  cbn. by f_equal; f_equal.
Qed.

Lemma move_without_player_witness :
  exists w' t,
    run all_ok (_connect alice) idle_in_lounge = (Ok "Moved", w', t)
    /\ voice_client w' = Some {| channel := lobby; _player := None |}
    /\ cleared t = [].
Proof.
  destruct (run all_ok (_connect alice) idle_in_lounge) as [[r w'] t] eqn:Hrun.
  assert (r = Ok "Moved") as -> by (vm_compute in Hrun; congruence).
  exists w', t. split; [done|].
  destruct (move_without_player all_ok alice idle_in_lounge _ _ w' t
              eq_refl eq_refl Hrun) as (Hc & _ & Hok).
  destruct (Hok _ eq_refl) as (_ & target & Htarget & Hvc & _).
  cbn in Htarget. by simplify_eq.
Defined.



(** ** More on [connect] *)

(** X8: a [connect] that succeeds leaves Blabber on the invoker's voice
    channel, whether it was there already, moved or connected, and has sent
    exactly one message. *)
Theorem connect_ends_in_invoker_channel (O : Oracle) (ctx : Context)
    (w : World) w' t :
  run O (connect ctx) w = (Ok tt, w', t) ->
  exists target vc',
    author_voice ctx = Some target
    /\ voice_client w' = Some vc'
    /\ channel_id (channel vc') = channel_id target
    /\ length (sent t) = 1.
Proof.
  intros Hrun. destruct w as [[v|] srcs nxt].
  all: run_cases; channel_facts; eexists _, _; (split; [done|]); cbn;
    (split; [done|]); by split.
Qed.

Lemma connect_ends_in_invoker_channel_witness :
  exists w' t vc',
    run all_ok (connect alice) speaking_in_lounge = (Ok tt, w', t)
    /\ voice_client w' = Some vc' /\ channel_id (channel vc') = 1.
Proof.
  destruct (run all_ok (connect alice) speaking_in_lounge) as [[r w'] t] eqn:Hrun.
  assert (r = Ok tt) as -> by (vm_compute in Hrun; congruence).
  destruct (connect_ends_in_invoker_channel all_ok alice speaking_in_lounge w' t
              Hrun) as (target & vc' & Htarget & Hvc & Hid & _).
  exists w', t, vc'. split; [done|]. split; [done|].
  cbn in Htarget. by simplify_eq.
Defined.

(** X9: the one message of a [connect] that succeeds names what was done:
    already in this channel when the session was on the invoker's channel,
    [Moved to] the channel's name when it was elsewhere, [Connected to] it
    when there was no session. *)
Theorem connect_reports_operation (O : Oracle) (ctx : Context) (w : World)
    (target : VoiceChannel) w' t :
  author_voice ctx = Some target ->
  run O (connect ctx) w = (Ok tt, w', t) ->
  sent t
  = [match voice_client w with
     | None => ":white_check_mark: **Connected to** `" +:+ name target +:+ "`"
     | Some vc =>
         if channel_eqb target (channel vc)
         then ":information_source: **Blabber is already in this voice channel**"
         else ":white_check_mark: **Moved to** `" +:+ name target +:+ "`"
     end].
Proof.
  intros Htarget Hrun. destruct w as [[v|] srcs nxt].
  all: unfold_cog; cbn in *; rewrite Htarget in Hrun; cbn in *.
  - destruct (channel_eqb target (channel v)) eqn:Heq; run_cases; done.
  - run_cases; done.
Qed.

Lemma connect_reports_operation_witness :
  exists w' t,
    run all_ok (connect alice) speaking_in_lounge = (Ok tt, w', t)
    /\ sent t = [":white_check_mark: **Moved to** `Lobby`"].
Proof.
  destruct (run all_ok (connect alice) speaking_in_lounge) as [[r w'] t] eqn:Hrun.
  assert (r = Ok tt) as -> by (vm_compute in Hrun; congruence).
  exists w', t. split; [done|].
  exact (connect_reports_operation all_ok alice speaking_in_lounge lobby w' t
           eq_refl Hrun).
Defined.

(** X10: a [connect] that fails has sent no message and leaves the session
    where it was: same channel, same player, or still none. *)
Theorem connect_failure_keeps_session (O : Oracle) (ctx : Context) (w : World)
    e w' t :
  run O (connect ctx) w = (Err e, w', t) ->
  sent t = [] /\ voice_client w' = voice_client w
  /\ next_source w' = next_source w.
Proof.
  intros Hrun. destruct w as [[v|] srcs nxt]; run_cases; done.
Qed.

Lemma connect_failure_keeps_session_witness :
  exists e w' t,
    run move_times_out (connect alice) speaking_in_lounge = (Err e, w', t)
    /\ voice_client w' = voice_client speaking_in_lounge /\ sent t = [].
Proof.
  destruct (run move_times_out (connect alice) speaking_in_lounge)
    as [[r w'] t] eqn:Hrun.
  assert (r = Err (BackendError "timed out")) as ->
    by (vm_compute in Hrun; congruence).
  exists (BackendError "timed out"), w', t. split; [done|].
  destruct (connect_failure_keeps_session move_times_out alice speaking_in_lounge
              _ w' t Hrun) as (? & ? & _).
  done.
Defined.

(** X11: [connect] is idempotent: after a [connect] that succeeded, the same
    invoker's next [connect] changes nothing and reports that Blabber is
    already in the channel, without any check or backend call. *)
Theorem connect_twice (O : Oracle) (ctx : Context) (w w1 : World) t1 :
  run O (connect ctx) w = (Ok tt, w1, t1) ->
  run O (connect ctx) w1
  = (Ok tt, w1,
     [EvSend ":information_source: **Blabber is already in this voice channel**"]).
Proof.
  intros Hrun.
  destruct (run O (connect ctx) w1) as [[r2 w2] t2] eqn:Hrun2.
  destruct w as [[v|] srcs nxt].
  all: unfold_cog; cbn in Hrun;
    destruct (author_voice ctx) as [target|] eqn:Htarget;
    run_cases; channel_facts; done.
Qed.

Lemma connect_twice_witness :
  exists w1 t1,
    run all_ok (connect alice) absent = (Ok tt, w1, t1)
    /\ run all_ok (connect alice) w1
       = (Ok tt, w1,
          [EvSend ":information_source: **Blabber is already in this voice channel**"]).
Proof.
  destruct (run all_ok (connect alice) absent) as [[r w1] t1] eqn:Hrun.
  assert (r = Ok tt) as -> by (vm_compute in Hrun; congruence).
  exists w1, t1. split; [done|].
  exact (connect_twice all_ok alice absent w1 t1 Hrun).
Defined.

(** X12: connecting from no session and then disconnecting gives back the
    state before the two commands. *)
Theorem connect_then_disconnect (O : Oracle) (ctx ctx' : Context)
    (w w1 w2 : World) t1 t2 :
  voice_client w = None ->
  run O (connect ctx) w = (Ok tt, w1, t1) ->
  run O (disconnect ctx') w1 = (Ok tt, w2, t2) ->
  w2 = w
  /\ exists target,
       author_voice ctx = Some target
       /\ connection_calls (t1 ++ t2)
          = [EvRequiredPermissions; EvConnect target; EvCanDisconnect; EvDisconnect].
Proof.
  intros Hvc Hrun1 Hrun2. destruct w as [v srcs nxt]. cbn in Hvc. subst v.
  run_cases; (split; [done|]); by eexists.
Qed.

Lemma connect_then_disconnect_witness :
  exists w1 t1 t2,
    run all_ok (connect alice) absent = (Ok tt, w1, t1)
    /\ run all_ok (disconnect bob) w1 = (Ok tt, absent, t2).
Proof.
  destruct (run all_ok (connect alice) absent) as [[r1 w1] t1] eqn:Hrun1.
  assert (r1 = Ok tt) as -> by (vm_compute in Hrun1; congruence).
  destruct (run all_ok (disconnect bob) w1) as [[r2 w2] t2] eqn:Hrun2.
  assert (r2 = Ok tt) as ->.
  { vm_compute in Hrun1. simplify_eq. vm_compute in Hrun2. congruence. }
  exists w1, t1, t2. split; [done|].
  destruct (connect_then_disconnect all_ok alice bob absent w1 w2 t1 t2
              eq_refl Hrun1 Hrun2) as [-> _].
  done.
Defined.

(** ** The error handlers after a failure *)

(** X13: after a [connect] that failed, [connect_error] names the operation
    by the session it finds, and that is the operation that was attempted:
    [move] when there was a session before the command, [connect] when
    there was none.  The handler sends this one message and changes
    nothing. *)
Theorem connect_error_names_attempt (O : Oracle) (ctx : Context) (w w1 : World)
    e t1 :
  run O (connect ctx) w = (Err e, w1, t1) ->
  run O (connect_error ctx e) w1
  = (Ok tt, w1,
     [EvSend (":x: **Unable to "
              +:+ match voice_client w with Some _ => "move" | None => "connect" end
              +:+ "**" +:+ newline +:+ str e)]).
Proof.
  intros Hrun. destruct w as [[v|] srcs nxt]; handler_cases; done.
Qed.

Lemma connect_error_names_attempt_witness :
  exists w1 t1,
    run permission_missing (connect alice) absent
    = (Err (PermissionError "connect"), w1, t1)
    /\ sent (run permission_missing
               (connect_error alice (PermissionError "connect")) w1).2
       = [":x: **Unable to connect**" +:+ newline +:+ "connect"].
Proof.
  destruct (run permission_missing (connect alice) absent) as [[r w1] t1] eqn:Hrun.
  assert (r = Err (PermissionError "connect")) as ->
    by (vm_compute in Hrun; congruence).
  exists w1, t1. split; [done|].
  by rewrite (connect_error_names_attempt permission_missing alice absent w1 _ t1
                Hrun).
Defined.

(** X14: a [disconnect] that failed, followed by [disconnect_error], leaves
    the state as it was before the command; the only message sent is the
    handler's, with the text of the error. *)
Theorem disconnect_error_after_failure (O : Oracle) (ctx : Context)
    (w w1 : World) e t1 :
  run O (disconnect ctx) w = (Err e, w1, t1) ->
  sent t1 = []
  /\ run O (disconnect_error ctx e) w1
     = (Ok tt, w,
        [EvSend (":x: **Unable to disconnect**" +:+ newline +:+ str e)]).
Proof.
  intros Hrun. destruct w as [[v|] srcs nxt]; handler_cases; done.
Qed.

Lemma disconnect_error_after_failure_witness :
  exists w1 t1,
    run disconnect_refused (disconnect alice) speaking_in_lounge
    = (Err (PermissionError "move_members"), w1, t1)
    /\ run disconnect_refused
         (disconnect_error alice (PermissionError "move_members")) w1
       = (Ok tt, speaking_in_lounge,
          [EvSend (":x: **Unable to disconnect**" +:+ newline +:+ "move_members")]).
Proof.
  destruct (run disconnect_refused (disconnect alice) speaking_in_lounge)
    as [[r w1] t1] eqn:Hrun.
  assert (r = Err (PermissionError "move_members")) as ->
    by (vm_compute in Hrun; congruence).
  exists w1, t1. split; [done|].
  by destruct (disconnect_error_after_failure disconnect_refused alice
                 speaking_in_lounge w1 _ t1 Hrun) as [_ ->].
Defined.

(** ** More on [say] *)

(** X15: when the session is on the invoker's channel, [say] makes no call
    of a connection step: no check, no [clear], no [connect], [move_to] or
    [disconnect]; the session stays on its channel. *)
Theorem say_in_channel_skips_connection (O : Oracle) (self : Voice)
    (ctx : Context) (msg : string) (w : World) (vc : VoiceClient)
    (target : VoiceChannel) r w' t :
  voice_client w = Some vc -> author_voice ctx = Some target ->
  channel_id target = channel_id (channel vc) ->
  run O (say self ctx msg) w = (r, w', t) ->
  connection_calls t = []
  /\ exists vc', voice_client w' = Some vc' /\ channel vc' = channel vc.
Proof.
  intros Hvc Htarget Hid Hrun. destruct w as [v srcs nxt]. cbn in Hvc. subst v.
  unfold_cog. cbn in Hrun. rewrite Htarget in Hrun. cbn in Hrun.
  unfold channel_eqb in Hrun. rewrite bool_decide_eq_true_2 in Hrun by done.
  run_cases; (split; [done|]); by eexists.
Qed.

Lemma say_in_channel_skips_connection_witness :
  exists r w' t,
    run all_ok (say blabber carol "hello") speaking_in_lounge = (r, w', t)
    /\ connection_calls t = [].
Proof.
  destruct (run all_ok (say blabber carol "hello") speaking_in_lounge)
    as [[r w'] t] eqn:Hrun.
  exists r, w', t. split; [done|].
  by destruct (say_in_channel_skips_connection all_ok blabber carol "hello"
                 speaking_in_lounge _ lounge r w' t eq_refl eq_refl eq_refl Hrun).
Defined.

(** X16: a [say] that succeeds on the invoker's channel, on a session with a
    player, puts its request at the back of the queue of the player's
    source: what was pending stays in front of it, and the other queues are
    as they were. *)
Theorem say_in_channel_enqueues_last (O : Oracle) (self : Voice)
    (ctx : Context) (msg : string) (w : World) (vc : VoiceClient)
    (p : AudioPlayer) (target : VoiceChannel) w' t :
  voice_client w = Some vc -> _player vc = Some p ->
  author_voice ctx = Some target ->
  channel_id target = channel_id (channel vc) ->
  run O (say self ctx msg) w = (Ok tt, w', t) ->
  exists voice,
    voices self !! profile_of (voice_profiles self) (author ctx, invocation_channel ctx)
    = Some voice
    /\ queue_of w' (source p)
       = queue_of w (source p) ++ [{| text := msg; params := voice |}]
    /\ forall src, src <> source p -> queue_of w' src = queue_of w src.
Proof.
  intros Hvc Hp Htarget Hid Hrun. destruct w as [v srcs nxt]. cbn in Hvc. subst v.
  unfold_cog. cbn in Hrun. rewrite Htarget in Hrun. cbn in Hrun.
  unfold channel_eqb in Hrun. rewrite bool_decide_eq_true_2 in Hrun by done.
  run_cases; eexists; (split; [done|]); unfold queue_of; cbn.
  all: split; [by rewrite lookup_insert_eq|].
  all: intros src Hsrc; by rewrite lookup_insert_ne.
Qed.

Lemma say_in_channel_enqueues_last_witness :
  exists w' t,
    run all_ok (say blabber carol "world") speaking_in_lounge = (Ok tt, w', t)
    /\ queue_of w' 0 = [hello; world].
Proof.
  destruct (run all_ok (say blabber carol "world") speaking_in_lounge)
    as [[r w'] t] eqn:Hrun.
  assert (r = Ok tt) as -> by (vm_compute in Hrun; congruence).
  exists w', t. split; [done|].
  destruct (say_in_channel_enqueues_last all_ok blabber carol "world"
              speaking_in_lounge _ {| source := 0; playing := true |} lounge w' t
              eq_refl eq_refl eq_refl eq_refl Hrun) as (voice & Hvoice & Hq & _).
  vm_compute in Hvoice. simplify_eq. exact Hq.
Defined.

(** X17: a [say] that succeeds from another channel, on a session with a
    player, has moved the session: what was pending in the player's source
    is dropped and the new request is alone in its queue. *)
Theorem say_from_elsewhere_drops_pending (O : Oracle) (self : Voice)
    (ctx : Context) (msg : string) (w : World) (vc : VoiceClient)
    (p : AudioPlayer) (target : VoiceChannel) w' t :
  voice_client w = Some vc -> _player vc = Some p ->
  author_voice ctx = Some target ->
  channel_id target <> channel_id (channel vc) ->
  run O (say self ctx msg) w = (Ok tt, w', t) ->
  exists voice,
    queue_of w' (source p) = [{| text := msg; params := voice |}]
    /\ cleared t = [source p]
    /\ voice_client w'
       = Some {| channel := target;
                 _player := Some {| source := source p; playing := true |} |}.
Proof.
  intros Hvc Hp Htarget Hid Hrun. destruct w as [v srcs nxt]. cbn in Hvc. subst v.
  unfold_cog. cbn in Hrun. rewrite Htarget in Hrun. cbn in Hrun.
  unfold channel_eqb in Hrun. rewrite bool_decide_eq_false_2 in Hrun by done.
  run_cases; eexists; unfold queue_of; cbn.
  all: rewrite lookup_insert_eq; cbn; rewrite ?lookup_insert_eq; cbn.
  all: split; [done|]; split; [done|].
  all: try done.
  all: destruct p as [s b]; cbn in *; by subst.
Qed.

Lemma say_from_elsewhere_drops_pending_witness :
  exists w' t,
    run all_ok (say blabber alice "world") speaking_in_lounge = (Ok tt, w', t)
    /\ queue_of speaking_in_lounge 0 = [hello]
    /\ queue_of w' 0 = [world].
Proof.
  destruct (run all_ok (say blabber alice "world") speaking_in_lounge)
    as [[r w'] t] eqn:Hrun.
  assert (r = Ok tt) as -> by (vm_compute in Hrun; congruence).
  exists w', t. split; [done|]. split; [done|].
  destruct (say_from_elsewhere_drops_pending all_ok blabber alice "world"
              speaking_in_lounge _ {| source := 0; playing := true |} lobby w' t
              eq_refl eq_refl eq_refl) as (voice & Hq & _); [by cbn|exact Hrun|].
  vm_compute in Hrun. by simplify_eq.
Defined.

(** X18: after a [say] that succeeds, Blabber is on the invoker's voice
    channel with a player that is playing, and the request, built from the
    message and the invoker's voice, is the last one in the queue of the
    player's source. *)
Theorem say_success_state (O : Oracle) (self : Voice) (ctx : Context)
    (msg : string) (w : World) w' t :
  run O (say self ctx msg) w = (Ok tt, w', t) ->
  exists target vc' p' voice,
    author_voice ctx = Some target
    /\ voice_client w' = Some vc'
    /\ channel_id (channel vc') = channel_id target
    /\ _player vc' = Some p' /\ playing p' = true
    /\ voices self !! profile_of (voice_profiles self) (author ctx, invocation_channel ctx)
       = Some voice
    /\ last (queue_of w' (source p')) = Some {| text := msg; params := voice |}.
Proof.
  intros Hrun. destruct w as [[v|] srcs nxt].
  all: run_cases; channel_facts; eexists _, _, _, _; (split; [done|]); cbn.
  all: split; [done|]; split; [done|]; split; [done|]; split; [done|].
  all: split; [done|]; unfold queue_of; cbn.
  all: rewrite ?lookup_insert_eq; cbn; rewrite ?lookup_insert_eq; cbn.
  all: by rewrite ?last_snoc.
Qed.

Lemma say_success_state_witness :
  exists w' t vc' p',
    run all_ok (say blabber alice "hello") absent = (Ok tt, w', t)
    /\ voice_client w' = Some vc' /\ _player vc' = Some p' /\ playing p' = true.
Proof.
  destruct (run all_ok (say blabber alice "hello") absent) as [[r w'] t] eqn:Hrun.
  assert (r = Ok tt) as -> by (vm_compute in Hrun; congruence).
  destruct (say_success_state all_ok blabber alice "hello" absent w' t Hrun)
    as (target & vc' & p' & voice & _ & Hvc & _ & Hp & Hplaying & _).
  by exists w', t, vc', p'.
Defined.

(** X19: [say] adds its reaction to the invoking message exactly when it
    succeeds, once and as its last call; it never sends a message and never
    disconnects. *)
Theorem say_acknowledges_success_only (O : Oracle) (self : Voice)
    (ctx : Context) (msg : string) (w : World) r w' t :
  run O (say self ctx msg) w = (r, w', t) ->
  reactions t = match r with
                | Ok _ => [(message_id ctx, "📣")]
                | Err _ => []
                end
  /\ (r = Ok tt -> last t = Some (EvAddReaction (message_id ctx) "📣"))
  /\ sent t = []
  /\ EvDisconnect ∉ t.
Proof.
  intros Hrun. destruct w as [[v|] srcs nxt].
  all: run_cases; (split; [done|]); (split; [done|]); (split; [done|]).
  all: intros Hin; split_elem Hin.
Qed.

Lemma say_acknowledges_success_only_witness :
  exists r w' t,
    run queue_full (say blabber alice "hello") absent = (r, w', t)
    /\ reactions t = [] /\ sent t = [].
Proof.
  destruct (run queue_full (say blabber alice "hello") absent) as [[r w'] t] eqn:Hrun.
  exists r, w', t. split; [done|].
  destruct (say_acknowledges_success_only queue_full blabber alice "hello" absent
              r w' t Hrun) as (Hreact & _ & Hsent & _).
  split; [|done].
  assert (r = Err (QueueFullError "queue is full")) as ->
    by (vm_compute in Hrun; congruence).
  exact Hreact.
Defined.

(** X20: when the table of voices has no entry for the invoker's profile,
    [say] fails: nothing is submitted, no playback is started and no
    reaction is added.  The connection step has run before the lookup, and
    so has the choice of the source: with no player, the [KeyError] leaves a
    source that was created for nothing, and no player. *)
Theorem say_unknown_voice (O : Oracle) (self : Voice) (ctx : Context)
    (msg : string) (w : World) r w' t :
  voices self !! profile_of (voice_profiles self) (author ctx, invocation_channel ctx)
  = None ->
  run O (say self ctx msg) w = (r, w', t) ->
  (exists e, r = Err e)
  /\ submitted t = [] /\ played t = [] /\ reactions t = []
  /\ (forall k, r = Err (KeyError k) ->
        k = profile_of (voice_profiles self) (author ctx, invocation_channel ctx)
        /\ created t = match current_player w with
                       | Some _ => []
                       | None => [next_source w]
                       end
        /\ current_player w' = current_player w).
Proof.
  intros Hvoice Hrun. destruct w as [[v|] srcs nxt].
  all: run_cases; (split; [by eexists|]); (split; [done|]); (split; [done|]).
  all: split; [done|]; intros k Hk; simplify_eq; try done.
  all: cbn; repeat case_match; simplify_eq; done.
Qed.

Lemma say_unknown_voice_witness :
  exists w' t,
    run all_ok (say voiceless alice "hello") absent = (Err (KeyError "voice_1"), w', t)
    /\ created t = [0] /\ submitted t = []
    /\ voice_client w' = Some {| channel := lobby; _player := None |}.
Proof.
  destruct (run all_ok (say voiceless alice "hello") absent) as [[r w'] t] eqn:Hrun.
  assert (r = Err (KeyError "voice_1")) as -> by (vm_compute in Hrun; congruence).
  exists w', t. split; [done|].
  destruct (say_unknown_voice all_ok voiceless alice "hello" absent _ w' t
              eq_refl Hrun) as (_ & Hsub & _ & _ & Hkey).
  destruct (Hkey _ eq_refl) as (_ & Hcreated & _).
  split; [exact Hcreated|]. split; [exact Hsub|].
  vm_compute in Hrun. by simplify_eq.
Defined.

(** X21: when the source refuses the request, [say] fails with that error
    right after the one submission: no playback is started, no reaction is
    added, the player is as it was, and the queue of the source is empty or
    as it was. *)
Theorem say_submission_refused (O : Oracle) (self : Voice) (ctx : Context)
    (msg : string) (w : World) d w' t :
  run O (say self ctx msg) w = (Err (QueueFullError d), w', t) ->
  exists src voice,
    submitted t = [(src, {| text := msg; params := voice |})]
    /\ last t = Some (EvSubmit src {| text := msg; params := voice |})
    /\ played t = [] /\ reactions t = []
    /\ current_player w' = current_player w
    /\ (queue_of w' src = [] \/ queue_of w' src = queue_of w src).
Proof.
  intros Hrun. destruct w as [[v|] srcs nxt].
  all: run_cases; eexists _, _; (split; [done|]); (split; [done|]).
  all: split; [done|]; split; [done|]; unfold queue_of; cbn.
  all: split; [repeat case_match; simplify_eq; done|].
  all: rewrite ?lookup_insert_eq; cbn; auto.
Qed.

Lemma say_submission_refused_witness :
  exists w' t,
    run queue_full (say blabber carol "world") speaking_in_lounge
    = (Err (QueueFullError "queue is full"), w', t)
    /\ played t = [] /\ current_player w' = current_player speaking_in_lounge.
Proof.
  destruct (run queue_full (say blabber carol "world") speaking_in_lounge)
    as [[r w'] t] eqn:Hrun.
  assert (r = Err (QueueFullError "queue is full")) as ->
    by (vm_compute in Hrun; congruence).
  exists w', t. split; [done|].
  by destruct (say_submission_refused queue_full blabber carol "world"
                 speaking_in_lounge _ w' t Hrun)
    as (src & voice & _ & _ & ? & _ & ? & _).
Defined.

(** ** A [disconnect] during a [say] *)

(** X22: nothing keeps a [disconnect] from running while a [say] is
    suspended on its submission.  When it does, on a session with a player
    on the invoker's channel, the [say] resumes, submits to the source of
    the player that is gone, finds no session to ask [is_playing()] and
    fails with the [AttributeError] of [None.is_playing]: no playback is
    started and no reaction is added. *)
Theorem say_loses_session_to_disconnect (O : Oracle) (self : Voice)
    (ctx ctx' : Context) (msg : string) (w : World) (vc : VoiceClient)
    (p : AudioPlayer) (target : VoiceChannel) (voice : VoiceParams) :
  voice_client w = Some vc -> _player vc = Some p ->
  author_voice ctx = Some target ->
  channel_id target = channel_id (channel vc) ->
  voices self !! profile_of (voice_profiles self) (author ctx, invocation_channel ctx)
  = Some voice ->
  disconnect_denied O ctx' w = None ->
  disconnect_failure O w = None ->
  submit_failure O (source p) {| text := msg; params := voice |}
    (set_voice_client None w) = None ->
  run_schedule O [0; 1; 1; 1; 1; 0]
    [Suspended (say self ctx msg); Suspended (disconnect ctx')] w
  = ([Finished (Err (AttributeError
                       "'NoneType' object has no attribute 'is_playing'"));
      Finished (Ok tt)],
     set_queue (source p)
       (queue_of w (source p) ++ [{| text := msg; params := voice |}])
       (set_voice_client None w),
     [EvCanDisconnect; EvDisconnect;
      EvSend ":white_check_mark: **Successfully disconnected**";
      EvSubmit (source p) {| text := msg; params := voice |}]).
Proof.
  intros Hvc Hp Htarget Hid Hvoice Hallowed Hbackend Hsubmit.
  destruct w as [v srcs nxt]. cbn in Hvc. subst v.
  unfold_cog. cbn. rewrite Htarget. cbn.
  unfold channel_eqb. rewrite bool_decide_eq_true_2 by done. cbn.
  rewrite Hp. cbn. rewrite Hvoice. cbn.
  rewrite Hallowed. cbn. rewrite Hbackend. cbn.
  rewrite Hsubmit. by cbn.
Qed.

Lemma say_loses_session_to_disconnect_witness :
  exists w' t,
    run_schedule all_ok [0; 1; 1; 1; 1; 0]
      [Suspended (say blabber carol "world"); Suspended (disconnect bob)]
      speaking_in_lounge
    = ([Finished (Err (AttributeError
                         "'NoneType' object has no attribute 'is_playing'"));
        Finished (Ok tt)], w', t)
    /\ voice_client w' = None /\ played t = [] /\ reactions t = [].
Proof.
  eexists _, _. split.
  - by apply (say_loses_session_to_disconnect all_ok blabber carol bob "world"
                speaking_in_lounge
                {| channel := lounge; _player := Some {| source := 0; playing := true |} |}
                {| source := 0; playing := true |} lounge english).
  - done.
Defined.
